(** * Grass automation (src/main.js): a shallow embedding of the rate
    limiter, the stats store, IP rotation, the check-in and the monitoring
    cycle of [GrassAutomation], with the properties of its specification. *)

From Stdlib Require Import ZArith QArith List String Bool Lia.
Import ListNotations.
Open Scope Z_scope.

(* ------------------------------------------------------------------ *)
(** ** Rate limiter ([this.rateLimiter] and [waitForRateLimit]) *)

Module RateLimit.

Record RateLimiter := mkRateLimiter {
  lastRequest : Z;
  minInterval : Z;
  requestsPerMinute : Z;
  requestCount : Z;
  minuteStart : Z
}.

(** The constructor's initial value; [now0] is [Date.now()] at
    construction. *)
Definition initRateLimiter (now0 : Z) : RateLimiter :=
  {| lastRequest := 0; minInterval := 30000; requestsPerMinute := 3;
     requestCount := 0; minuteStart := now0 |}.

(** The clock is the value [Date.now()] returns.  The environment of one
    call of [waitForRateLimit] is how far the clock moves at each point
    where the code observes it: [gap] before the first [Date.now()],
    [late1] and [late2] the lateness of the two [setTimeout]-based
    [sleep]s beyond their requested delay, [drift] before the final
    [Date.now()].  All are non-negative: the clock does not go back. *)
Record Delays := mkDelays { gap : Z; late1 : Z; late2 : Z; drift : Z }.

Definition delays_ok (d : Delays) : Prop :=
  0 <= gap d /\ 0 <= late1 d /\ 0 <= late2 d /\ 0 <= drift d.

(** [sleep(ms)]: resumes no earlier than [ms] milliseconds later (a
    negative delay fires at once). *)
Definition sleep (ms late clock : Z) : Z := clock + Z.max ms 0 + late.

Definition set_window (count start : Z) (rl : RateLimiter) : RateLimiter :=
  {| lastRequest := lastRequest rl; minInterval := minInterval rl;
     requestsPerMinute := requestsPerMinute rl;
     requestCount := count; minuteStart := start |}.

Definition record_request (t : Z) (rl : RateLimiter) : RateLimiter :=
  {| lastRequest := t; minInterval := minInterval rl;
     requestsPerMinute := requestsPerMinute rl;
     requestCount := requestCount rl + 1; minuteStart := minuteStart rl |}.

(** [waitForRateLimit()]: the pair is (clock, limiter state).  Note that
    [timeSinceLast] uses the [now] read on entry, as the source does. *)
Definition waitForRateLimit (d : Delays) (c : Z * RateLimiter)
  : Z * RateLimiter :=
  let '(clock, rl) := c in
  let now := clock + gap d in
  (* Reset counter setiap menit *)
  let rl1 := if now - minuteStart rl >? 60000 then set_window 0 now rl
             else rl in
  (* Cek rate limit per menit *)
  let '(clock2, rl2) :=
    if requestCount rl1 >=? requestsPerMinute rl1 then
      let waitTime := 60000 - (now - minuteStart rl1) in
      let woke := sleep waitTime (late1 d) now in
      (woke, set_window 0 woke rl1)
    else (now, rl1) in
  (* Cek interval minimal antara request *)
  let timeSinceLast := now - lastRequest rl2 in
  let clock3 := if timeSinceLast <? minInterval rl2
                then sleep (minInterval rl2 - timeSinceLast) (late2 d) clock2
                else clock2 in
  let t := clock3 + drift d in
  (t, record_request t rl2).

(** A sequence of calls; the result lists the recorded [lastRequest]
    timestamps in call order. *)
Fixpoint run (ds : list Delays) (c : Z * RateLimiter) : list Z :=
  match ds with
  | [] => []
  | d :: ds' =>
      let c' := waitForRateLimit d c in
      lastRequest (snd c') :: run ds' c'
  end.

(** Number of recorded timestamps in the closed window [[a, b]]. *)
Definition count_in (a b : Z) (ts : list Z) : nat :=
  List.length (filter (fun t => (a <=? t) && (t <=? b)) ts).

End RateLimit.

(* ------------------------------------------------------------------ *)
(** ** Stats, configuration and the effects of a cycle *)

Module Grass.

(** [this.stats].  Counters are JS numbers holding integers; [lastCheckin]
    is [null] ([None]) or the instant of [new Date().toISOString()] in
    milliseconds since the epoch. *)
Record Stats := mkStats {
  totalCheckins : Z;
  successfulCheckins : Z;
  failedCheckins : Z;
  lastCheckin : option Z;
  totalPoints : Z;
  uptimeHours : Z;
  ipRotations : Z
}.

Definition defaultStats : Stats :=
  {| totalCheckins := 0; successfulCheckins := 0; failedCheckins := 0;
     lastCheckin := None; totalPoints := 0; uptimeHours := 0;
     ipRotations := 0 |}.

(** A thrown JS error: [error.response?.status] and [error.message]
    ([None] when the property is undefined). *)
Record JsError := mkJsError {
  err_status : option Z;
  err_message : option string
}.

(** What [error.message.includes(...)] throws when [message] is
    undefined. *)
Definition typeError : JsError :=
  {| err_status := None;
     err_message := Some "Cannot read properties of undefined"%string |}.

(** Results of code that may throw. *)
Inductive Exc (A : Type) : Type :=
| Ok : A -> Exc A
| Throw : JsError -> Exc A.
Arguments Ok {A} _.
Arguments Throw {A} _.

(** The endpoints [makeRequest] is called on. *)
Inductive Endpoint := RetrieveUser | RetrieveDevice | ActiveIps | Checkin.

(** Observable effects: an outbound request, or a write of [stats.json]
    ([saveStats]) with the record written. *)
Inductive Event :=
| Request (e : Endpoint)
| Save (s : Stats).

(** The mutable object: [this.config.ipAddress], [this.stats] and the
    effects performed so far, most recent first. *)
Record State := mkState {
  config_ipAddress : option string;
  stats : Stats;
  trace : list Event
}.

(** A state and exception monad for the [async] methods. *)
Definition M (A : Type) : Type := State -> Exc A * State.

Definition ret {A} (a : A) : M A := fun s => (Ok a, s).
Definition bind {A B} (m : M A) (k : A -> M B) : M B :=
  fun s => match m s with
           | (Ok a, s') => k a s'
           | (Throw e, s') => (Throw e, s')
           end.
Definition throw {A} (e : JsError) : M A := fun s => (Throw e, s).
(** [try { m } catch (error) { h(error) }] *)
Definition catch {A} (m : M A) (h : JsError -> M A) : M A :=
  fun s => match m s with
           | (Ok a, s') => (Ok a, s')
           | (Throw e, s') => h e s'
           end.
Definition lift {A} (r : Exc A) : M A := fun s => (r, s).
Definition get : M State := fun s => (Ok s, s).

Notation "x <- m ;; k" := (bind m (fun x => k))
  (at level 61, m at next level, right associativity).
Notation "m ;;; k" := (bind m (fun _ => k))
  (at level 61, right associativity).

Definition modify_stats (f : Stats -> Stats) : M unit :=
  fun s => (Ok tt, {| config_ipAddress := config_ipAddress s; stats := f (stats s);
                      trace := trace s |}).
Definition set_ip (ip : string) : M unit :=
  fun s => (Ok tt, {| config_ipAddress := Some ip; stats := stats s;
                      trace := trace s |}).
Definition emit (e : Event) : M unit :=
  fun s => (Ok tt, {| config_ipAddress := config_ipAddress s; stats := stats s;
                      trace := e :: trace s |}).

(** Field updates of [this.stats]. *)
Definition with_totalCheckins (n : Z) (s : Stats) : Stats :=
  {| totalCheckins := n; successfulCheckins := successfulCheckins s;
     failedCheckins := failedCheckins s; lastCheckin := lastCheckin s;
     totalPoints := totalPoints s; uptimeHours := uptimeHours s;
     ipRotations := ipRotations s |}.
Definition with_successfulCheckins (n : Z) (s : Stats) : Stats :=
  {| totalCheckins := totalCheckins s; successfulCheckins := n;
     failedCheckins := failedCheckins s; lastCheckin := lastCheckin s;
     totalPoints := totalPoints s; uptimeHours := uptimeHours s;
     ipRotations := ipRotations s |}.
Definition with_failedCheckins (n : Z) (s : Stats) : Stats :=
  {| totalCheckins := totalCheckins s;
     successfulCheckins := successfulCheckins s;
     failedCheckins := n; lastCheckin := lastCheckin s;
     totalPoints := totalPoints s; uptimeHours := uptimeHours s;
     ipRotations := ipRotations s |}.
Definition with_lastCheckin (t : option Z) (s : Stats) : Stats :=
  {| totalCheckins := totalCheckins s;
     successfulCheckins := successfulCheckins s;
     failedCheckins := failedCheckins s; lastCheckin := t;
     totalPoints := totalPoints s; uptimeHours := uptimeHours s;
     ipRotations := ipRotations s |}.
Definition with_totalPoints (p : Z) (s : Stats) : Stats :=
  {| totalCheckins := totalCheckins s;
     successfulCheckins := successfulCheckins s;
     failedCheckins := failedCheckins s; lastCheckin := lastCheckin s;
     totalPoints := p; uptimeHours := uptimeHours s;
     ipRotations := ipRotations s |}.
Definition with_uptimeHours (h : Z) (s : Stats) : Stats :=
  {| totalCheckins := totalCheckins s;
     successfulCheckins := successfulCheckins s;
     failedCheckins := failedCheckins s; lastCheckin := lastCheckin s;
     totalPoints := totalPoints s; uptimeHours := h;
     ipRotations := ipRotations s |}.
Definition with_ipRotations (n : Z) (s : Stats) : Stats :=
  {| totalCheckins := totalCheckins s;
     successfulCheckins := successfulCheckins s;
     failedCheckins := failedCheckins s; lastCheckin := lastCheckin s;
     totalPoints := totalPoints s; uptimeHours := uptimeHours s;
     ipRotations := n |}.


(** *** Stats store ([loadStats], [saveStats]) *)

(** The file [stats.json] as [fs] sees it: absent, present but unreadable,
    or present with some text. *)
Inductive StatsFile :=
| Missing
| Unreadable
| Contents (text : string).

Definition fsError : JsError :=
  {| err_status := None; err_message := Some "EACCES"%string |}.

Definition existsSync (f : StatsFile) : bool :=
  match f with Missing => false | _ => true end.

Definition readFileSync (f : StatsFile) : Exc string :=
  match f with Contents t => Ok t | _ => Throw fsError end.

Section Load.
(** [JSON.parse] (external): the parsed record, or a thrown
    [SyntaxError]. *)
Variable JSON_parse : string -> Exc Stats.

Definition loadStats (f : StatsFile) : M unit :=
  catch
    (if existsSync f then
       text <- lift (readFileSync f) ;;
       parsed <- lift (JSON_parse text) ;;
       modify_stats (fun _ => parsed)
     else modify_stats (fun _ => defaultStats))
    (fun _ => (* this.log('error', 'Failed to load stats', error) *)
       modify_stats (fun _ => defaultStats)).
End Load.

(** [saveStats()]: writes the current record (a failed write is caught
    and only logged, so the event stands for the attempted write). *)
Definition saveStats : M unit :=
  st <- get ;; emit (Save (stats st)).

(** *** API calls *)

(** An element of the [activeIps] result. *)
Record IpEntry := mkIpEntry { ipAddress : string }.

Record DeviceStatus := mkDeviceStatus {
  isConnected : bool;
  totalUptime : option Z
}.

Record UserProfile := mkUserProfile { userTotalPoints : option Z }.

Record CheckinResponse := mkCheckinResponse { points : option Z }.

(** The read operations: one rate-limited request, then
    [response.result?.data], or [null] when the request threw (both are
    the [option] given as the reply). *)
Definition getUserProfile (reply : option UserProfile)
  : M (option UserProfile) :=
  emit (Request RetrieveUser) ;;; ret reply.

Definition getDeviceStatus (reply : option DeviceStatus)
  : M (option DeviceStatus) :=
  emit (Request RetrieveDevice) ;;; ret reply.

Definition getActiveIps (reply : option (list IpEntry))
  : M (option (list IpEntry)) :=
  emit (Request ActiveIps) ;;; ret reply.

(** *** IP rotation ([rotateIp]) *)

(** [ip.ipAddress !== this.config.ipAddress]; an unset [DEFAULT_IP]
    leaves the configured address [undefined]. *)
Definition differs (a : string) (cur : option string) : bool :=
  match cur with
  | None => true
  | Some c => negb (String.eqb a c)
  end.

Definition rotateIp (reply : option (list IpEntry)) : M bool :=
  catch
    (activeIps <- getActiveIps reply ;;
     match activeIps with
     | Some l =>
         if Nat.ltb 1 (List.length l) then
           st <- get ;;
           (* Pilih IP yang bukan IP saat ini *)
           match find (fun ip => differs (ipAddress ip) (config_ipAddress st)) l with
           | Some ip =>
               (* if (newIp): the empty string is falsy *)
               if String.eqb (ipAddress ip) "" then ret false
               else
                 set_ip (ipAddress ip) ;;;
                 modify_stats (fun s => with_ipRotations (ipRotations s + 1) s) ;;;
                 ret true
           | None => ret false
           end
         else ret false
     | None => ret false
     end)
    (fun _ => ret false).

(** *** Check-in ([checkIn]) *)

(** [s.includes(pat)] *)
Fixpoint includes (s pat : string) : bool :=
  String.prefix pat s ||
  match s with
  | EmptyString => false
  | String _ s' => includes s' pat
  end.

(** [error.response?.status === 429 || error.message.includes('rate limit')];
    the second operand throws when [message] is undefined. *)
Definition isRateLimited (error : JsError) : M bool :=
  match err_status error with
  | Some c => if c =? 429 then ret true else
      match err_message error with
      | Some m => ret (includes m "rate limit")
      | None => throw typeError
      end
  | None =>
      match err_message error with
      | Some m => ret (includes m "rate limit")
      | None => throw typeError
      end
  end.

(** [token]: the outcome of [generateCheckinToken()]; [reply]: the outcome
    of the [POST /checkin] request; [now]: the instant of [new Date()];
    [rotReply]: what the rotation's [getActiveIps] receives. *)
Definition checkIn (token : Exc string) (reply : Exc CheckinResponse)
  (now : Z) (rotReply : option (list IpEntry)) : M (option CheckinResponse) :=
  catch
    (modify_stats (fun s => with_totalCheckins (totalCheckins s + 1) s) ;;;
     _ <- lift token ;;
     response <- (emit (Request Checkin) ;;; lift reply) ;;
     modify_stats (fun s => with_successfulCheckins (successfulCheckins s + 1) s) ;;;
     modify_stats (with_lastCheckin (Some now)) ;;;
     (* Update stats dari response jika ada *)
     (match points response with
      | Some p =>
          if p =? 0 then ret tt
          else modify_stats (fun s => with_totalPoints (totalPoints s + p) s)
      | None => ret tt
      end) ;;;
     saveStats ;;;
     ret (Some response))
    (fun error =>
       modify_stats (fun s => with_failedCheckins (failedCheckins s + 1) s) ;;;
       saveStats ;;;
       (* Coba rotate IP jika check-in gagal *)
       rl <- isRateLimited error ;;
       (if rl then _ <- rotateIp rotReply ;; ret tt else ret tt) ;;;
       ret None).

(** *** The monitoring cycle ([monitorAndMaintain]) *)

(** What the outside world supplies to one cycle: the replies of the
    requests in the order the cycle makes them, and the clock. *)
Record Env := mkEnv {
  env_device : option DeviceStatus;        (* getDeviceStatus *)
  env_ips : option (list IpEntry);         (* getActiveIps, step 2 *)
  env_now_maintain : Z;                    (* Date.now(), step 3 *)
  env_ips_rotate : option (list IpEntry);  (* rotateIp, step 3 *)
  env_token : Exc string;                  (* generateCheckinToken *)
  env_checkin : Exc CheckinResponse;       (* POST /checkin *)
  env_now_checkin : Z;                     (* new Date() in checkIn *)
  env_ips_checkin : option (list IpEntry); (* rotateIp inside checkIn *)
  env_profile : option UserProfile         (* getUserProfile *)
}.

(** 1. Check device status.  A disconnected device is only logged. *)
Definition fetchStatus (device : option DeviceStatus) : M unit :=
  deviceStatus <- getDeviceStatus device ;;
  match deviceStatus with
  | Some d =>
      match totalUptime d with
      | Some u =>
          if u =? 0 then ret tt
          else modify_stats (with_uptimeHours (u / 3600000))
      | None => ret tt
      end
  | None => ret tt
  end.

(** [new Date(this.stats.lastCheckin).getTime()]: [new Date(null)] is the
    epoch. *)
Definition dateTime (t : option Z) : Z :=
  match t with Some ms => ms | None => 0 end.

(** [hoursSinceLastRotation], a real number. *)
Definition hoursSinceLastRotation (now : Z) (s : Stats) : Q :=
  if 0 <? ipRotations s
  then inject_Z (now - dateTime (lastCheckin s)) / inject_Z 3600000
  else 24.

(** 2. Check active IPs, and 3. rotate every 12 hours. *)
Definition maintainIp (ips : option (list IpEntry)) (now : Z)
  (rotReply : option (list IpEntry)) : M unit :=
  _ <- getActiveIps ips ;;
  st <- get ;;
  if Qle_bool 12 (hoursSinceLastRotation now (stats st))
  then _ <- rotateIp rotReply ;; ret tt
  else ret tt.

(** 5. Update user profile. *)
Definition syncProfile (profile : option UserProfile) : M unit :=
  userProfile <- getUserProfile profile ;;
  match userProfile with
  | Some p =>
      match userTotalPoints p with
      | Some t => if t =? 0 then ret tt else modify_stats (with_totalPoints t)
      | None => ret tt
      end
  | None => ret tt
  end.

Definition monitorAndMaintain (env : Env) : M unit :=
  catch
    (fetchStatus (env_device env) ;;;
     maintainIp (env_ips env) (env_now_maintain env) (env_ips_rotate env) ;;;
     _ <- checkIn (env_token env) (env_checkin env) (env_now_checkin env)
                  (env_ips_checkin env) ;;
     syncProfile (env_profile env) ;;;
     saveStats)
    (fun _ => (* this.log('error', 'Monitoring cycle failed', error) *)
       ret tt).

(** The record most recently written to [stats.json] by a trace. *)
Fixpoint lastSaved (tr : list Event) : option Stats :=
  match tr with
  | [] => None
  | Save s :: _ => Some s
  | Request _ :: tr' => lastSaved tr'
  end.

(** Number of [activeIps] requests in a trace. *)
Definition activeIpsRequests (tr : list Event) : nat :=
  List.length (filter (fun e => match e with Request ActiveIps => true | _ => false end) tr).

(** *** Vocabulary of the properties *)

(** The state after [rotateIp] fetched the list and changed nothing. *)
Definition after_fetch (st : State) : State :=
  {| config_ipAddress := config_ipAddress st; stats := stats st;
     trace := Request ActiveIps :: trace st |}.

(** The state after [rotateIp] switched to [x]. *)
Definition after_rotation (x : string) (st : State) : State :=
  {| config_ipAddress := Some x;
     stats := with_ipRotations (ipRotations (stats st) + 1) (stats st);
     trace := Request ActiveIps :: trace st |}.

Definition checkin_balanced (s : Stats) : Prop :=
  totalCheckins s = successfulCheckins s + failedCheckins s.

(** The failure a check-in error signals as rate-limiting: HTTP 429 or a
    message containing ["rate limit"]. *)
Definition rateLimitSignal (e : JsError) : bool :=
  match err_status e with Some c => c =? 429 | None => false end ||
  match err_message e with Some m => includes m "rate limit" | None => false end.

(** The record [checkIn]'s error handler persists. *)
Definition failed_saved (s : Stats) : Stats :=
  with_failedCheckins (failedCheckins s + 1)
    (with_totalCheckins (totalCheckins s + 1) s).

Definition cycle_env (p t : Z) : Env :=
  {| env_device := None; env_ips := None; env_now_maintain := 0;
     env_ips_rotate := None; env_token := Ok "tok"%string;
     env_checkin := Ok (mkCheckinResponse (Some p));
     env_now_checkin := 1000; env_ips_checkin := None;
     env_profile := Some (mkUserProfile (Some t)) |}.

Definition points_state : State :=
  {| config_ipAddress := Some "A"%string;
     stats := with_totalPoints 100 defaultStats; trace := [] |}.

End Grass.

(* ------------------------------------------------------------------ *)
(** ** Logging, the check-in token and start-up *)

Module Runtime.

(** *** [log(level, message, data)] *)

(** [const levels = { error: 0, warn: 1, info: 2, debug: 3 }]; any other
    key (also an inherited one such as ["toString"]) gives a value for
    which [<=] is false, [None] here. *)
Definition levels (l : string) : option Z :=
  if String.eqb l "error" then Some 0
  else if String.eqb l "warn" then Some 1
  else if String.eqb l "info" then Some 2
  else if String.eqb l "debug" then Some 3
  else None.

(** [levels[level] <= levels[logLevel]]: a comparison with [undefined] is
    false. *)
Definition levelLeq (a b : option Z) : bool :=
  match a, b with
  | Some x, Some y => x <=? y
  | _, _ => false
  end.

(** [process.env.LOG_LEVEL || 'info']: unset or empty falls back. *)
Definition logLevelOf (LOG_LEVEL : option string) : string :=
  match LOG_LEVEL with
  | Some s => if String.eqb s "" then "info" else s
  | None => "info"
  end.

(** [String.prototype.toUpperCase] on ASCII letters. *)
Definition upperAscii (c : Ascii.ascii) : Ascii.ascii :=
  let n := Ascii.nat_of_ascii c in
  if andb (Nat.leb 97 n) (Nat.leb n 122) then Ascii.ascii_of_nat (n - 32) else c.

Fixpoint toUpperCase (s : string) : string :=
  match s with
  | EmptyString => EmptyString
  | String c s' => String (upperAscii c) (toUpperCase s')
  end.

Definition newline : string := String (Ascii.ascii_of_nat 10) EmptyString.

(** What one [log] call prints or appends. *)
Inductive LogOutput :=
| Console (line : string)
| ConsoleData (data : string)
| AppendFile (line : string).

(** [timestamp] is [new Date().toISOString()]; [data] is [None] when
    absent ([null]); [LOG_LEVEL] and [LOG_TO_FILE] are the environment. *)
Definition log (timestamp level message : string) (data : option string)
  (LOG_LEVEL LOG_TO_FILE : option string) : list LogOutput :=
  let logLevel := logLevelOf LOG_LEVEL in
  if levelLeq (levels level) (levels logLevel) then
    let logMessage := ("[" ++ timestamp ++ "] [" ++ toUpperCase level ++ "] "
                       ++ message)%string in
    [Console logMessage] ++
    (match data with
     | Some d => if String.eqb d "" then [] else [ConsoleData d]
     | None => []
     end) ++
    (match LOG_TO_FILE with
     | Some v => if String.eqb v "true"
                 then [AppendFile (logMessage ++ newline)%string] else []
     | None => []
     end)
  else [].

(** *** [generateCheckinToken()] *)

(** Decimal digits of a non-negative integer ([`${n}`]); 32 digits cover
    every value [Date.now()] returns. *)
Fixpoint decimal_aux (fuel : nat) (n : Z) (acc : string) : string :=
  match fuel with
  | O => acc
  | S f =>
      let acc' := String (Ascii.ascii_of_nat (48 + Z.to_nat (n mod 10))) acc in
      if n <? 10 then acc' else decimal_aux f (n / 10) acc'
  end.

Definition decimal (n : Z) : string := decimal_aux 32 n EmptyString.

(** The environment-derived configuration the token reads. *)
Record Config := mkConfig {
  deviceId : option string;
  userId : option string;
  extensionId : option string;
  userAgent : option string;
  cfg_ipAddress : option string
}.

Record CheckinPayload := mkCheckinPayload {
  browserId : option string;
  p_userId : option string;
  version : string;
  p_extensionId : option string;
  p_userAgent : option string;
  deviceType : string;
  iss : string;
  sub : string;
  aud : list (option string);
  exp : Z;
  nbf : Z;
  iat : Z;
  jti : string
}.

(** The payload; [t1] .. [t4] are the four [Date.now()] readings, in
    source order (for [exp], [nbf], [iat], [jti]).  The token is the
    fixed header, [btoa(JSON.stringify(payload))] and ["signature"]. *)
Definition checkinPayload (cfg : Config) (t1 t2 t3 t4 : Z) : CheckinPayload :=
  {| browserId := deviceId cfg; p_userId := userId cfg; version := "6.1.3";
     p_extensionId := extensionId cfg; p_userAgent := userAgent cfg;
     deviceType := "extension"; iss := "director-server";
     sub := "jeYkUsu31nAW"; aud := [cfg_ipAddress cfg];
     exp := t1 / 1000 + 300; (* 5 menit *)
     nbf := t2 / 1000;
     iat := t3 / 1000;
     jti := ("checkin_" ++ decimal t4)%string |}.

(** *** [main()] and [startWithRetry()] *)

(** The state of the process after start-up. *)
Inductive Proc :=
| Running            (* start() resolved, the schedule is active *)
| Exited (code : Z)  (* process.exit(code) *)
| Idle.              (* the retry loop ended without starting *)

(** [main()]: [attempt] is the outcome of [new GrassAutomation()] and
    [await grass.start()]; its [catch] exits with status 1, so the promise
    of [main] itself never rejects. *)
Definition main (attempt : Grass.Exc unit) : Grass.Exc Proc :=
  match attempt with
  | Grass.Ok _ => Grass.Ok Running
  | Grass.Throw _ => Grass.Ok (Exited 1)
  end.

(** [for (let i = 0; i < maxRetries; i++)]: [attempts i] is what the
    [i]-th start-up meets; the result is the process state and the number
    of [main()] calls. *)
Fixpoint retryLoop (i remaining maxRetries : nat)
  (attempts : nat -> Grass.Exc unit) : Proc * nat :=
  match remaining with
  | O => (Idle, i)
  | S r =>
      match main (attempts i) with
      | Grass.Ok p => (p, S i) (* break, or process.exit inside main *)
      | Grass.Throw _ =>
          if Nat.ltb i (maxRetries - 1)
          then retryLoop (S i) r maxRetries attempts (* after the delay *)
          else (Exited 1, S i)                        (* Max retries reached *)
      end
  end.

Definition startWithRetry (maxRetries : nat) (attempts : nat -> Grass.Exc unit)
  : Proc * nat :=
  retryLoop 0 maxRetries maxRetries attempts.

End Runtime.

(* ================================================================== *)
(** * Properties *)

(** ** Rate limiter *)

(** Projections of the limiter's records, without unfolding the arithmetic. *)
Ltac rl_simpl_in_goal :=
  cbn [RateLimit.gap RateLimit.late1 RateLimit.late2 RateLimit.drift fst snd
       RateLimit.set_window RateLimit.record_request
       RateLimit.minuteStart RateLimit.requestCount RateLimit.requestsPerMinute
       RateLimit.lastRequest RateLimit.minInterval].
Tactic Notation "rl_simpl" := rl_simpl_in_goal.
Tactic Notation "rl_simpl" "in" "*" :=
  cbn [RateLimit.gap RateLimit.late1 RateLimit.late2 RateLimit.drift fst snd
       RateLimit.set_window RateLimit.record_request
       RateLimit.minuteStart RateLimit.requestCount RateLimit.requestsPerMinute
       RateLimit.lastRequest RateLimit.minInterval] in *.

(** Case analysis of one call of [waitForRateLimit], with every
    comparison turned into a hypothesis on [Z]. *)
Ltac rl_cases :=
  unfold RateLimit.waitForRateLimit, RateLimit.sleep; rl_simpl;
  repeat (match goal with
          | |- context [if ?b then _ else _] => destruct b eqn:?
          | H : context [if ?b then _ else _] |- _ => destruct b eqn:?
          end; rl_simpl in *);
  repeat match goal with
         | H : (_ >=? _) = _ |- _ =>
             rewrite Z.geb_leb in H; apply Z.leb_le in H || apply Z.leb_gt in H
         | H : (_ >? _) = _ |- _ =>
             rewrite Z.gtb_ltb in H; apply Z.ltb_lt in H || apply Z.ltb_ge in H
         | H : (_ <? _) = _ |- _ => apply Z.ltb_lt in H || apply Z.ltb_ge in H
         end; rl_simpl in *.

Lemma waitForRateLimit_spacing (d : RateLimit.Delays) (c : Z * RateLimit.RateLimiter) :
  RateLimit.delays_ok d ->
  RateLimit.lastRequest (snd c) + RateLimit.minInterval (snd c)
    <= RateLimit.lastRequest (snd (RateLimit.waitForRateLimit d c)) /\
  RateLimit.minInterval (snd (RateLimit.waitForRateLimit d c))
    = RateLimit.minInterval (snd c).
Proof.
  destruct c as [clock [lr mi rpm rc ms]]; destruct d as [g l1 l2 dr].
  intros (Hg & H1 & H2 & Hd); rl_simpl in *.
  unfold RateLimit.waitForRateLimit, RateLimit.sleep; rl_simpl.
  destruct (_ >? 60000) eqn:E1; rl_simpl;
    destruct (_ >=? _) eqn:E2; rl_simpl;
    destruct (_ <? _) eqn:E3; rl_simpl;
    try apply Z.ltb_lt in E3; try apply Z.ltb_ge in E3;
    split; try reflexivity; lia.
Qed.

Lemma run_spaced (ds : list RateLimit.Delays) (c : Z * RateLimit.RateLimiter) :
  Forall RateLimit.delays_ok ds ->
  RateLimit.minInterval (snd c) = 30000 ->
  Forall (fun y => RateLimit.lastRequest (snd c) + 30000 <= y) (RateLimit.run ds c) /\
  ForallOrdPairs (fun x y => x + 30000 <= y) (RateLimit.run ds c).
Proof.
  revert c; induction ds as [|d ds IH]; intros c Hds Hmin; simpl.
  - split; constructor.
  - inversion Hds as [|? ? Hd Hds']; subst.
    destruct (waitForRateLimit_spacing d c Hd) as [Hsp Hm].
    destruct (IH (RateLimit.waitForRateLimit d c) Hds' ltac:(congruence))
      as [Hall Hpairs].
    split.
    + constructor; [lia|].
      eapply Forall_impl; [|exact Hall]; simpl; intros; lia.
    + constructor; assumption.
Qed.

(** Timestamps at least [d] apart: at most [(b - a)/d + 1] of them fall
    in the closed window [[a, b]]. *)
Lemma count_in_spaced (d : Z) (ts : list Z) :
  0 < d ->
  ForallOrdPairs (fun x y => x + d <= y) ts ->
  forall a b, Z.of_nat (RateLimit.count_in a b ts) * d <= Z.max 0 (b - a + d).
Proof.
  intros Hd Hts; induction Hts as [|x ts Hx Hts IH]; intros a b;
    unfold RateLimit.count_in in *; simpl; [lia|].
  destruct ((a <=? x) && (x <=? b)) eqn:Hin.
  - apply andb_true_iff in Hin as [Hax Hxb].
    apply Z.leb_le in Hax; apply Z.leb_le in Hxb.
    assert (Heq : filter (fun t => (a <=? t) && (t <=? b)) ts
                  = filter (fun t => (x + d <=? t) && (t <=? b)) ts).
    { apply filter_ext_in; intros y Hy.
      rewrite Forall_forall in Hx; specialize (Hx y Hy); simpl in Hx.
      destruct (y <=? b); [|now rewrite !andb_false_r].
      rewrite !andb_true_r; apply Z.leb_le in Hx.
      assert (a <= y) by lia; now rewrite (proj2 (Z.leb_le _ _) H). }
    cbn [filter]; rewrite Heq; cbn [List.length]; specialize (IH (x + d) b).
    rewrite Nat2Z.inj_succ, Z.mul_succ_l; lia.
  - apply IH.
Qed.

(** C1: for every sequence of [waitForRateLimit] calls on the limiter the
    constructor builds (clock never going back), any two recorded
    [lastRequest] timestamps are at least [minInterval] = 30 s apart, and
    no closed 60-second window holds more than the quota of 3 of them. *)
Theorem waitForRateLimit_interval_and_quota (now0 : Z) (ds : list RateLimit.Delays)
  (Hds : Forall RateLimit.delays_ok ds) :
  let ts := RateLimit.run ds (now0, RateLimit.initRateLimiter now0) in
  RateLimit.minInterval (RateLimit.initRateLimiter now0) = 30000 /\
  RateLimit.requestsPerMinute (RateLimit.initRateLimiter now0) = 3 /\
  ForallOrdPairs (fun x y => x + RateLimit.minInterval (RateLimit.initRateLimiter now0) <= y) ts /\
  (forall a, (RateLimit.count_in a (a + 60000) ts
              <= Z.to_nat (RateLimit.requestsPerMinute (RateLimit.initRateLimiter now0)))%nat).
Proof.
  intros ts.
  destruct (run_spaced ds (now0, RateLimit.initRateLimiter now0) Hds eq_refl)
    as [_ Hpairs].
  simpl; split; [reflexivity|]; split; [reflexivity|]; split; [exact Hpairs|].
  intros a; pose proof (count_in_spaced 30000 ts ltac:(lia) Hpairs a (a + 60000)).
  lia.
Qed.

Lemma waitForRateLimit_interval_and_quota_witness :
  Forall RateLimit.delays_ok (repeat (RateLimit.mkDelays 0 5 5 1) 5) /\
  (let ts := RateLimit.run (repeat (RateLimit.mkDelays 0 5 5 1) 5)
               (1000000, RateLimit.initRateLimiter 1000000) in
   RateLimit.minInterval (RateLimit.initRateLimiter 1000000) = 30000 /\
   RateLimit.requestsPerMinute (RateLimit.initRateLimiter 1000000) = 3 /\
   ForallOrdPairs (fun x y => x + RateLimit.minInterval (RateLimit.initRateLimiter 1000000) <= y) ts /\
   (forall a, (RateLimit.count_in a (a + 60000) ts
               <= Z.to_nat (RateLimit.requestsPerMinute (RateLimit.initRateLimiter 1000000)))%nat)).
Proof.
  assert (H : Forall RateLimit.delays_ok (repeat (RateLimit.mkDelays 0 5 5 1) 5)).
  { simpl; repeat constructor; simpl; lia. }
  split; [exact H|].
  exact (waitForRateLimit_interval_and_quota 1000000 _ H).
Defined.

(** ** IP rotation *)

Section FindFirst.
Context {A : Type} (f : A -> bool).

Lemma find_split (l : list A) (x : A) :
  find f l = Some x ->
  exists pre post, l = pre ++ x :: post /\
    Forall (fun y => f y = false) pre /\ f x = true.
Proof.
  induction l as [|y l IH]; simpl; [discriminate|].
  destruct (f y) eqn:Hy; intros H.
  - injection H as <-; exists [], l; auto.
  - destruct (IH H) as (pre & post & -> & Hpre & Hx).
    exists (y :: pre), post; auto.
Qed.

Lemma find_first (pre post : list A) (x : A) :
  Forall (fun y => f y = false) pre -> f x = true ->
  find f (pre ++ x :: post) = Some x.
Proof.
  intros Hpre Hx; induction Hpre as [|y pre Hy _ IH]; simpl.
  - now rewrite Hx.
  - now rewrite Hy.
Qed.

Lemma find_none_forall (l : list A) :
  Forall (fun y => f y = false) l -> find f l = None.
Proof.
  induction 1 as [|y l Hy _ IH]; simpl; [reflexivity|now rewrite Hy].
Qed.
End FindFirst.

Import Grass.



Lemma rotateIp_spec (reply : option (list IpEntry)) (st : State) :
  rotateIp reply st = (Ok false, after_fetch st) \/
  exists x, differs x (config_ipAddress st) = true /\ x <> ""%string /\
            rotateIp reply st = (Ok true, after_rotation x st).
Proof.
  cbv [rotateIp catch bind ret get emit set_ip modify_stats getActiveIps].
  destruct reply as [l|]; [|left; reflexivity].
  destruct (Nat.ltb 1 (List.length l)); [|left; reflexivity].
  simpl.
  destruct (find _ l) as [ip|] eqn:Hf; [|left; reflexivity].
  destruct (String.eqb (ipAddress ip) "") eqn:He; [left; reflexivity|].
  right; exists (ipAddress ip); split; [|split].
  - apply find_some in Hf as [_ Hf]; exact Hf.
  - intros Hx; rewrite Hx in He; discriminate.
  - reflexivity.
Qed.

Lemma differs_neq (x : string) (cur : option string) :
  differs x cur = true -> Some x <> cur.
Proof.
  destruct cur as [c|]; simpl; [|discriminate].
  intros H Heq; injection Heq as ->; rewrite String.eqb_refl in H; discriminate.
Qed.

(** Rewrite every [rotateIp] call of the goal with its two outcomes. *)
Ltac case_rotateIp :=
  match goal with
  | |- context [rotateIp ?r ?s] =>
      let x := fresh "x" in let Hd := fresh "Hd" in let Hne := fresh "Hne" in
      destruct (rotateIp_spec r s) as [->|(x & Hd & Hne & ->)]
  end.

(** C3 (counterexample): a list of two entries with one single address
    [C], different from the current [A], has fewer than two distinct
    addresses, yet [rotateIp] rotates to [C] and counts a rotation. *)
Lemma rotateIp_duplicate_entries_rotate :
  let st := {| config_ipAddress := Some "A"%string; stats := defaultStats;
               trace := [] |} in
  rotateIp (Some [mkIpEntry "C"; mkIpEntry "C"]) st
  = (Ok true, after_rotation "C" st) /\
  ipRotations (stats (after_rotation "C" st)) = 1.
Proof. split; reflexivity. Qed.

(** C3 (amended): [rotateIp] returns [false] and changes nothing (beyond
    the fetch) when the fetch failed, when the list has at most one entry,
    or when no entry differs from the current IP.  Otherwise it takes the
    first entry whose address differs from the current IP: if that
    address is non-empty it becomes the configured IP (so never the
    current one) and [ipRotations] grows by one, else it returns [false]. *)
Theorem rotateIp_first_differing :
  (forall st, rotateIp None st = (Ok false, after_fetch st)) /\
  (forall l st, (List.length l <= 1)%nat ->
     rotateIp (Some l) st = (Ok false, after_fetch st)) /\
  (forall l st,
     Forall (fun e => differs (ipAddress e) (config_ipAddress st) = false) l ->
     rotateIp (Some l) st = (Ok false, after_fetch st)) /\
  (forall pre ip post st,
     (1 < List.length (pre ++ ip :: post))%nat ->
     Forall (fun e => differs (ipAddress e) (config_ipAddress st) = false) pre ->
     differs (ipAddress ip) (config_ipAddress st) = true ->
     Some (ipAddress ip) <> config_ipAddress st /\
     rotateIp (Some (pre ++ ip :: post)) st
     = if String.eqb (ipAddress ip) "" then (Ok false, after_fetch st)
       else (Ok true, after_rotation (ipAddress ip) st)).
Proof.
  cbv [rotateIp catch bind ret get emit set_ip modify_stats getActiveIps].
  split; [reflexivity|]; split; [|split].
  - intros l st Hl.
    destruct (Nat.ltb_spec 1 (List.length l)); [lia|reflexivity].
  - intros l st Hl.
    destruct (Nat.ltb 1 (List.length l)); [|reflexivity]; simpl.
    rewrite (find_none_forall _ l Hl); reflexivity.
  - intros pre ip post st Hlen Hpre Hip; split; [now apply differs_neq|].
    destruct (Nat.ltb_spec 1 (List.length (pre ++ ip :: post))); [|lia]; simpl.
    rewrite (find_first _ pre post ip Hpre Hip).
    destruct (String.eqb (ipAddress ip) ""); reflexivity.
Qed.

Lemma rotateIp_first_differing_witness :
  let st := {| config_ipAddress := Some "A"%string; stats := defaultStats;
               trace := [] |} in
  Some "B"%string <> config_ipAddress st /\
  rotateIp (Some [mkIpEntry "A"; mkIpEntry "B"]) st
  = (Ok true, after_rotation "B" st).
Proof.
  intros st.
  destruct rotateIp_first_differing as (_ & _ & _ & H).
  exact (H [mkIpEntry "A"] (mkIpEntry "B") [] st
           ltac:(simpl; lia) ltac:(repeat constructor) eq_refl).
Defined.

(** C9: [rotateIp] is atomic with respect to failure: it either returns
    [false] with the configured IP and [ipRotations] unchanged, or returns
    [true] having replaced the IP by a different one and incremented
    [ipRotations] by one; it never throws. *)
Theorem rotateIp_atomic (reply : option (list IpEntry)) (st : State) :
  let '(r, st') := rotateIp reply st in
  (r = Ok false /\ config_ipAddress st' = config_ipAddress st /\
   ipRotations (stats st') = ipRotations (stats st)) \/
  (r = Ok true /\ config_ipAddress st' <> config_ipAddress st /\
   ipRotations (stats st') = ipRotations (stats st) + 1).
Proof.
  destruct (rotateIp_spec reply st) as [->|(x & Hd & _ & ->)].
  - left; auto.
  - right; simpl; split; [reflexivity|]; split; [now apply differs_neq|reflexivity].
Qed.

(** ** Check-in *)


Ltac unfold_M :=
  cbv [checkIn catch bind ret get emit modify_stats lift saveStats
       isRateLimited throw with_totalCheckins with_successfulCheckins
       with_failedCheckins with_lastCheckin with_totalPoints
       with_uptimeHours with_ipRotations after_fetch after_rotation] in *.

Ltac destruct_matches :=
  repeat match goal with
         | |- context [match ?x with _ => _ end] =>
             lazymatch type of x with
             | prod _ _ => fail
             | _ => destruct x eqn:?; simpl
             end
         end.

(** C2: every completed check-in attempt, successful, failed, or ending in
    an exception of its error handler, preserves
    [totalCheckins = successfulCheckins + failedCheckins]. *)
Theorem checkIn_preserves_balance (token : Exc string)
  (reply : Exc CheckinResponse) (now : Z) (rotReply : option (list IpEntry))
  (st : State) (Hinv : checkin_balanced (stats st)) :
  checkin_balanced (stats (snd (checkIn token reply now rotReply st))).
Proof.
  unfold checkin_balanced in *.
  unfold_M; destruct token; [destruct reply|]; simpl;
    destruct_matches; try case_rotateIp; simpl; lia.
Qed.

Lemma checkIn_preserves_balance_witness :
  let st := {| config_ipAddress := Some "A"%string; stats := defaultStats;
               trace := [] |} in
  checkin_balanced (stats st) /\
  checkin_balanced
    (stats (snd (checkIn (Ok "tok"%string)
                         (Throw (mkJsError (Some 429) None)) 1000
                         (Some [mkIpEntry "A"; mkIpEntry "B"]) st))).
Proof.
  intros st.
  assert (H : checkin_balanced (stats st)) by reflexivity.
  split; [exact H|].
  exact (checkIn_preserves_balance _ _ _ _ st H).
Defined.



Ltac exists_base_with b :=
  let e := match goal with e : JsError |- _ => e end in
  destruct e as [[?c|] [?m|]]; unfold rateLimitSignal, failed_saved; unfold_M;
  simpl; destruct_matches; try case_rotateIp; simpl;
  (split; [lia|]); exists b; (split; [auto|]);
  split; intros ?H; try discriminate; try (split; [reflexivity|]); reflexivity.

(** C5: when the attempt fails (the token builder or the request throws
    [e]), [failedCheckins] grows by one and the stats are written at once;
    if [e] signals rate-limiting exactly one rotation attempt (one
    [activeIps] fetch) follows and [checkIn] returns [null] whatever the
    rotation's outcome; otherwise nothing follows the write. *)
Theorem checkIn_failure_rotation (token : Exc string)
  (reply : Exc CheckinResponse) (now : Z) (rotReply : option (list IpEntry))
  (st : State) (e : JsError)
  (Hfail : token = Throw e \/ exists t, token = Ok t /\ reply = Throw e) :
  let '(r, st') := checkIn token reply now rotReply st in
  failedCheckins (stats st') = failedCheckins (stats st) + 1 /\
  exists base, (base = trace st \/ base = Request Checkin :: trace st) /\
  (rateLimitSignal e = true ->
     r = Ok None /\
     trace st' = Request ActiveIps :: Save (failed_saved (stats st)) :: base) /\
  (rateLimitSignal e = false ->
     trace st' = Save (failed_saved (stats st)) :: base).
Proof.
  destruct Hfail as [->|(t & -> & ->)].
  - exists_base_with (trace st).
  - exists_base_with (Request Checkin :: trace st).
Qed.

Lemma checkIn_failure_rotation_witness :
  let st := {| config_ipAddress := Some "A"%string; stats := defaultStats;
               trace := [] |} in
  let e := mkJsError (Some 429) None in
  ((Ok "tok"%string : Exc string) = Throw e \/
   exists t, (Ok "tok"%string : Exc string) = Ok t /\
             (Throw e : Exc CheckinResponse) = Throw e) /\
  (let '(r, st') := checkIn (Ok "tok"%string) (Throw e) 1000
                             (Some [mkIpEntry "A"; mkIpEntry "B"]) st in
   failedCheckins (stats st') = failedCheckins (stats st) + 1 /\
   exists base, (base = trace st \/ base = Request Checkin :: trace st) /\
   (rateLimitSignal e = true ->
      r = Ok None /\
      trace st' = Request ActiveIps :: Save (failed_saved (stats st)) :: base) /\
   (rateLimitSignal e = false ->
      trace st' = Save (failed_saved (stats st)) :: base)).
Proof.
  intros st e.
  assert (H : (Ok "tok"%string : Exc string) = Throw e \/
              exists t, (Ok "tok"%string : Exc string) = Ok t /\
                        (Throw e : Exc CheckinResponse) = Throw e).
  { right; exists "tok"%string; split; reflexivity. }
  split; [exact H|].
  exact (checkIn_failure_rotation (Ok "tok"%string) (Throw e) 1000
           (Some [mkIpEntry "A"; mkIpEntry "B"]) st e H).
Defined.

(** ** Stats store *)

(** C7: [loadStats] never raises; on a missing file, an unreadable file,
    or a file whose text [JSON.parse] rejects, [this.stats] becomes the
    zero record (all counters 0, [lastCheckin] null). *)
Theorem loadStats_default_on_failure (JSON_parse : string -> Exc Stats)
  (f : StatsFile) (st : State) :
  fst (loadStats JSON_parse f st) = Ok tt /\
  ((f = Missing \/ f = Unreadable \/
    exists text e, f = Contents text /\ JSON_parse text = Throw e) ->
   stats (snd (loadStats JSON_parse f st)) = defaultStats).
Proof.
  cbv [loadStats catch bind lift modify_stats existsSync readFileSync].
  destruct f as [| |text]; simpl.
  - split; auto.
  - split; auto.
  - destruct (JSON_parse text) as [parsed|e] eqn:Hp; simpl.
    + split; [reflexivity|].
      intros [H|[H|(text' & e & H & He)]]; try discriminate.
      injection H as <-; congruence.
    + split; auto.
Qed.

Lemma loadStats_default_on_failure_witness :
  let parse := fun _ : string => (Throw (mkJsError None (Some "Unexpected end of JSON input"%string)) : Exc Stats) in
  let st := {| config_ipAddress := None; stats := defaultStats; trace := [] |} in
  fst (loadStats parse (Contents "{"%string) st) = Ok tt /\
  ((Contents "{"%string = Missing \/ Contents "{"%string = Unreadable \/
    exists text e, Contents "{"%string = Contents text /\ parse text = Throw e) ->
   stats (snd (loadStats parse (Contents "{"%string) st)) = defaultStats).
Proof.
  intros parse st.
  exact (loadStats_default_on_failure parse (Contents "{"%string) st).
Defined.

(** ** Monitoring cycle steps *)

Lemma fetchStatus_ok (device : option DeviceStatus) (st : State) :
  exists st', fetchStatus device st = (Ok tt, st') /\
              totalPoints (stats st') = totalPoints (stats st).
Proof.
  cbv [fetchStatus getDeviceStatus bind emit ret modify_stats with_uptimeHours].
  destruct device as [[c [u|]]|]; simpl; eauto.
  destruct (u =? 0); simpl; eauto.
Qed.

Lemma maintainIp_ok (ips : option (list IpEntry)) (now : Z)
  (rotReply : option (list IpEntry)) (st : State) :
  exists st', maintainIp ips now rotReply st = (Ok tt, st').
Proof.
  cbv [maintainIp getActiveIps bind emit ret get].
  destruct (Qle_bool _ _); simpl; [|eauto].
  case_rotateIp; simpl; eauto.
Qed.

Lemma checkIn_success_points (tok : string) (resp : CheckinResponse)
  (now : Z) (rotReply : option (list IpEntry)) (st : State) :
  exists st', checkIn (Ok tok) (Ok resp) now rotReply st = (Ok (Some resp), st') /\
    totalPoints (stats st') =
      totalPoints (stats st) +
      match points resp with Some p => if p =? 0 then 0 else p | None => 0 end /\
    lastSaved (trace st') = Some (stats st').
Proof.
  unfold_M; simpl.
  destruct (points resp) as [p|]; simpl; [destruct (p =? 0); simpl|];
    eexists; (split; [reflexivity|]); simpl; split; try reflexivity; lia.
Qed.

Lemma syncProfile_nonzero_total (t : Z) (st : State) :
  t <> 0 ->
  syncProfile (Some (mkUserProfile (Some t))) st
  = (Ok tt, {| config_ipAddress := config_ipAddress st;
               stats := with_totalPoints t (stats st);
               trace := Request RetrieveUser :: trace st |}).
Proof.
  intros Ht; cbv [syncProfile getUserProfile bind emit ret modify_stats]; simpl.
  destruct (Z.eqb_spec t 0); [contradiction|reflexivity].
Qed.

Lemma syncProfile_zero_total (st : State) :
  syncProfile (Some (mkUserProfile (Some 0))) st
  = (Ok tt, {| config_ipAddress := config_ipAddress st;
               stats := stats st;
               trace := Request RetrieveUser :: trace st |}).
Proof. reflexivity. Qed.

Lemma maintainIp_points (ips : option (list IpEntry)) (now : Z)
  (rotReply : option (list IpEntry)) (st : State) :
  exists st', maintainIp ips now rotReply st = (Ok tt, st') /\
              totalPoints (stats st') = totalPoints (stats st).
Proof.
  cbv [maintainIp getActiveIps bind emit ret get].
  destruct (Qle_bool _ _); simpl; [|eauto].
  case_rotateIp; simpl; eauto.
Qed.

(** C10: in SYNC_PROFILE, an absent profile, an absent point total or a
    reported total of 0 leaves the stats (so [totalPoints]) unchanged; only
    a nonzero reported total overwrites [totalPoints]. *)
Theorem syncProfile_overwrites_only_nonzero (profile : option UserProfile)
  (st : State) :
  fst (syncProfile profile st) = Ok tt /\
  ((profile = None \/
    exists p, profile = Some p /\
              (userTotalPoints p = None \/ userTotalPoints p = Some 0)) ->
   stats (snd (syncProfile profile st)) = stats st) /\
  (forall p t, profile = Some p -> userTotalPoints p = Some t -> t <> 0 ->
   stats (snd (syncProfile profile st)) = with_totalPoints t (stats st)).
Proof.
  cbv [syncProfile getUserProfile bind emit ret modify_stats].
  destruct profile as [[[t|]]|]; simpl.
  - destruct (Z.eqb_spec t 0) as [->|Ht]; simpl.
    + split; [reflexivity|]; split; [auto|].
      intros p t' Hp Ht' Hne; injection Hp as <-; simpl in Ht'; congruence.
    + split; [reflexivity|]; split.
      * intros [H|(p & Hp & [H|H])]; try discriminate;
          injection Hp as <-; simpl in H; congruence.
      * intros p t' Hp Ht' _; injection Hp as <-; simpl in Ht'; congruence.
  - split; [reflexivity|]; split; [auto|].
    intros p t' Hp Ht' _; injection Hp as <-; simpl in Ht'; discriminate.
  - split; [reflexivity|]; split; [auto|]; discriminate.
Qed.

Lemma syncProfile_overwrites_only_nonzero_witness :
  let st := {| config_ipAddress := None;
               stats := with_totalPoints 150 defaultStats; trace := [] |} in
  stats (snd (syncProfile (Some (mkUserProfile (Some 0))) st)) = stats st /\
  stats (snd (syncProfile (Some (mkUserProfile (Some 500))) st))
    = with_totalPoints 500 (stats st).
Proof.
  intros st; split.
  - apply (proj1 (proj2 (syncProfile_overwrites_only_nonzero (Some (mkUserProfile (Some 0))) st))).
    right; exists (mkUserProfile (Some 0)); split; [reflexivity|right; reflexivity].
  - apply (proj2 (proj2 (syncProfile_overwrites_only_nonzero (Some (mkUserProfile (Some 500))) st)))
      with (p := mkUserProfile (Some 500)); [reflexivity|reflexivity|lia].
Defined.

(** C8 (counterexample): a device status reporting [totalUptime = 0]
    carries an uptime, whose integer division by 3,600,000 is 0, yet
    FETCH_STATUS leaves a previous [uptimeHours] of 5 in place. *)
Lemma fetchStatus_zero_uptime_kept :
  let st := {| config_ipAddress := None;
               stats := with_uptimeHours 5 defaultStats; trace := [] |} in
  uptimeHours (stats (snd (fetchStatus (Some (mkDeviceStatus true (Some 0))) st)))
    = 5 /\
  uptimeHours (stats (snd (fetchStatus (Some (mkDeviceStatus true (Some 0))) st)))
    <> 0 / 3600000.
Proof. split; [reflexivity|discriminate]. Qed.

(** C8 (amended): when the device status is present and carries a nonzero
    uptime [u] (ms), FETCH_STATUS sets [uptimeHours] to [u / 3600000]
    (floor division) and changes nothing else; 7,200,000 ms gives 2.  A
    zero or absent uptime, or an absent status, leaves the stats as they
    are. *)
Theorem fetchStatus_uptime_hours :
  (forall c u st, u <> 0 ->
     fetchStatus (Some (mkDeviceStatus c (Some u))) st
     = (Ok tt, {| config_ipAddress := config_ipAddress st;
                  stats := with_uptimeHours (u / 3600000) (stats st);
                  trace := Request RetrieveDevice :: trace st |})) /\
  (forall c st,
     uptimeHours (stats (snd (fetchStatus (Some (mkDeviceStatus c (Some 7200000))) st)))
     = 2) /\
  (forall device st,
     (device = None \/ exists c, device = Some (mkDeviceStatus c None) \/
                                 device = Some (mkDeviceStatus c (Some 0))) ->
     stats (snd (fetchStatus device st)) = stats st).
Proof.
  cbv [fetchStatus getDeviceStatus bind emit ret modify_stats].
  split; [|split].
  - intros c u st Hu; simpl; destruct (Z.eqb_spec u 0); [contradiction|reflexivity].
  - intros c st; reflexivity.
  - intros device st [->|(c & [->| ->])]; reflexivity.
Qed.

Lemma fetchStatus_uptime_hours_witness :
  let st := {| config_ipAddress := None; stats := defaultStats; trace := [] |} in
  fetchStatus (Some (mkDeviceStatus true (Some 7200000))) st
  = (Ok tt, {| config_ipAddress := None;
               stats := with_uptimeHours 2 defaultStats;
               trace := [Request RetrieveDevice] |}).
Proof.
  intros st.
  destruct fetchStatus_uptime_hours as [H _].
  exact (H true 7200000 st ltac:(lia)).
Defined.

(** C4: in MAINTAIN_IP the elapsed-hours value is
    [(now - lastCheckin) / 3600000] (as a real number, [lastCheckin]
    read through [new Date(...)]) when [ipRotations > 0] and 24 when
    [ipRotations = 0]; a rotation is attempted (the step's second
    [activeIps] fetch, the one [rotateIp] makes) exactly when this value
    is at least 12, so always on a record with no rotations. *)
Theorem maintainIp_rotation_rule (ips : option (list IpEntry)) (now : Z)
  (rotReply : option (list IpEntry)) (st : State) :
  let h := hoursSinceLastRotation now (stats st) in
  let st' := snd (maintainIp ips now rotReply st) in
  (0 < ipRotations (stats st) ->
     h = (inject_Z (now - dateTime (lastCheckin (stats st))) / inject_Z 3600000)%Q) /\
  (ipRotations (stats st) = 0 -> h = 24%Q) /\
  (activeIpsRequests (trace st') = (activeIpsRequests (trace st) + 2)%nat
     <-> (12 <= h)%Q) /\
  (ipRotations (stats st) = 0 ->
     activeIpsRequests (trace st') = (activeIpsRequests (trace st) + 2)%nat).
Proof.
  intros h st'.
  assert (Hreq : activeIpsRequests (trace st') = (activeIpsRequests (trace st) + 2)%nat
                 <-> (12 <= h)%Q).
  { subst st' h.
    cbv [maintainIp getActiveIps bind emit ret get].
    destruct (Qle_bool 12 _) eqn:Hq; simpl.
    - apply Qle_bool_iff in Hq.
      case_rotateIp; cbv [activeIpsRequests after_fetch after_rotation]; simpl;
        split; intros; [exact Hq| lia| exact Hq | lia].
    - split; [unfold activeIpsRequests; simpl; lia|].
      intros Hle; apply Qle_bool_iff in Hle; simpl in Hq; congruence. }
  unfold h, hoursSinceLastRotation.
  split; [|split; [|split]].
  - intros Hpos; apply Z.ltb_lt in Hpos; now rewrite Hpos.
  - intros H0; now rewrite H0.
  - exact Hreq.
  - intros H0; apply Hreq; unfold h, hoursSinceLastRotation; rewrite H0.
    simpl; discriminate.
Qed.

Lemma maintainIp_rotation_rule_witness :
  let st := {| config_ipAddress := Some "A"%string; stats := defaultStats;
               trace := [] |} in
  ipRotations (stats st) = 0 /\
  activeIpsRequests
    (trace (snd (maintainIp None 1000 (Some [mkIpEntry "A"; mkIpEntry "B"]) st)))
  = (activeIpsRequests (trace st) + 2)%nat.
Proof.
  intros st.
  assert (H : ipRotations (stats st) = 0) by reflexivity.
  split; [exact H|].
  destruct (maintainIp_rotation_rule None 1000 (Some [mkIpEntry "A"; mkIpEntry "B"]) st)
    as (_ & _ & _ & H4).
  exact (H4 H).
Defined.

(** ** Points: check-in delta and profile overwrite *)



(** C6 (counterexample): the check-in adds 50 to 100, and the profile then
    carries a point total of 0; the cycle does not overwrite [totalPoints]
    with it: 150 is kept and persisted. *)
Lemma monitor_zero_profile_total_kept :
  let st' := snd (monitorAndMaintain (cycle_env 50 0) points_state) in
  env_profile (cycle_env 50 0) = Some (mkUserProfile (Some 0)) /\
  totalPoints (stats st') = 150 /\
  option_map totalPoints (lastSaved (trace st')) = Some 150.
Proof. vm_compute; auto. Qed.

(** C6 (amended): a successful check-in whose response carries a
    [points] value [p] adds [p] to [totalPoints] (a value of 0 changes
    nothing either way); in a cycle whose check-in succeeds, a profile
    carrying a nonzero point total [t] overwrites [totalPoints] with [t],
    which is the value persisted at the end of the cycle; a reported total
    of 0 does not overwrite: the cycle ends with the total the check-in
    left, and persists it. *)
Theorem points_delta_then_profile_overwrite :
  (forall tok p now rotReply st,
     totalPoints (stats (snd (checkIn (Ok tok) (Ok (mkCheckinResponse (Some p)))
                                      now rotReply st)))
     = totalPoints (stats st) + p) /\
  (forall env st tok resp t,
     env_token env = Ok tok -> env_checkin env = Ok resp ->
     env_profile env = Some (mkUserProfile (Some t)) -> t <> 0 ->
     let st' := snd (monitorAndMaintain env st) in
     totalPoints (stats st') = t /\ lastSaved (trace st') = Some (stats st')) /\
  (forall env st tok p,
     env_token env = Ok tok -> env_checkin env = Ok (mkCheckinResponse (Some p)) ->
     env_profile env = Some (mkUserProfile (Some 0)) ->
     let st' := snd (monitorAndMaintain env st) in
     totalPoints (stats st') = totalPoints (stats st) + p /\
     lastSaved (trace st') = Some (stats st')).
Proof.
  split; [|split].
  - intros tok p now rotReply st.
    destruct (checkIn_success_points tok (mkCheckinResponse (Some p)) now rotReply st)
      as (st' & Heq & Hpts & _).
    rewrite Heq; simpl in *; rewrite Hpts.
    destruct (Z.eqb_spec p 0); lia.
  - intros env st tok resp t Htok Hci Hprof Ht.
    unfold monitorAndMaintain, catch, bind.
    destruct (fetchStatus_ok (env_device env) st) as (st1 & -> & _).
    destruct (maintainIp_ok (env_ips env) (env_now_maintain env) (env_ips_rotate env) st1)
      as (st2 & ->).
    rewrite Htok, Hci.
    destruct (checkIn_success_points tok resp (env_now_checkin env) (env_ips_checkin env) st2)
      as (st3 & -> & _ & _).
    rewrite Hprof.
    rewrite (syncProfile_nonzero_total t st3 Ht).
    cbv [saveStats get emit bind]; simpl; split; reflexivity.
  - intros env st tok p Htok Hci Hprof.
    unfold monitorAndMaintain, catch, bind.
    destruct (fetchStatus_ok (env_device env) st) as (st1 & -> & H1).
    destruct (maintainIp_points (env_ips env) (env_now_maintain env) (env_ips_rotate env) st1)
      as (st2 & -> & H2).
    rewrite Htok, Hci.
    destruct (checkIn_success_points tok (mkCheckinResponse (Some p))
                (env_now_checkin env) (env_ips_checkin env) st2)
      as (st3 & -> & H3 & _).
    rewrite Hprof, syncProfile_zero_total.
    cbv [saveStats get emit bind]; simpl; split; [|reflexivity].
    simpl in H3; rewrite H3, H2, H1.
    destruct (Z.eqb_spec p 0); lia.
Qed.

Lemma points_delta_then_profile_overwrite_witness :
  let st' := snd (monitorAndMaintain (cycle_env 50 500) points_state) in
  let st0 := snd (monitorAndMaintain (cycle_env 50 0) points_state) in
  totalPoints (stats (snd (checkIn (Ok "tok"%string) (Ok (mkCheckinResponse (Some 50)))
                                   1000 None points_state))) = 150 /\
  (totalPoints (stats st') = 500 /\ lastSaved (trace st') = Some (stats st')) /\
  (totalPoints (stats st0) = totalPoints (stats points_state) + 50 /\
   lastSaved (trace st0) = Some (stats st0)).
Proof.
  destruct points_delta_then_profile_overwrite as (H1 & H2 & H3); split; [|split].
  - exact (H1 "tok"%string 50 1000 None points_state).
  - exact (H2 (cycle_env 50 500) points_state "tok"%string
             (mkCheckinResponse (Some 50)) 500 eq_refl eq_refl eq_refl ltac:(lia)).
  - exact (H3 (cycle_env 50 0) points_state "tok"%string 50 eq_refl eq_refl eq_refl).
Defined.

(* ================================================================== *)
(** * Further properties of the code *)

(** ** Logging *)

(** With [LOG_LEVEL] set to a name outside error/warn/info/debug, [log]
    prints and appends nothing, not even errors. *)
Theorem log_unknown_level_silent (timestamp level message : string)
  (data : option string) (s : string) (LOG_TO_FILE : option string)
  (Hne : s <> ""%string) (Hunknown : Runtime.levels s = None) :
  Runtime.log timestamp level message data (Some s) LOG_TO_FILE = [].
Proof.
  unfold Runtime.log, Runtime.logLevelOf.
  destruct (String.eqb_spec s ""); [contradiction|].
  rewrite Hunknown; destruct (Runtime.levels level); reflexivity.
Qed.

Lemma log_unknown_level_silent_witness :
  "verbose"%string <> ""%string /\ Runtime.levels "verbose" = None /\
  Runtime.log "2026-01-01T00:00:00.000Z" "error" "Check-in failed" None
    (Some "verbose"%string) (Some "true"%string) = [].
Proof.
  assert (H1 : "verbose"%string <> ""%string) by discriminate.
  assert (H2 : Runtime.levels "verbose" = None) by reflexivity.
  split; [exact H1|]; split; [exact H2|].
  exact (log_unknown_level_silent _ _ _ _ _ _ H1 H2).
Defined.

(** Logging is a severity threshold: if a message of some level is
    output, a message of any more severe level is output too. *)
Theorem log_severity_threshold (timestamp message : string) (data : option string)
  (LOG_LEVEL LOG_TO_FILE : option string) (l1 l2 : string) (a b : Z)
  (H1 : Runtime.levels l1 = Some a) (H2 : Runtime.levels l2 = Some b)
  (Hsev : b <= a)
  (Hout : Runtime.log timestamp l1 message data LOG_LEVEL LOG_TO_FILE <> []) :
  Runtime.log timestamp l2 message data LOG_LEVEL LOG_TO_FILE <> [].
Proof.
  revert Hout; unfold Runtime.log; rewrite H1, H2.
  destruct (Runtime.levels (Runtime.logLevelOf LOG_LEVEL)) as [c|]; simpl;
    [|congruence].
  destruct (Z.leb_spec a c); [|congruence].
  destruct (Z.leb_spec b c); [|lia]; intros _; discriminate.
Qed.

Lemma log_severity_threshold_witness :
  Runtime.levels "info" = Some 2 /\ Runtime.levels "error" = Some 0 /\ 0 <= 2 /\
  Runtime.log "T" "info" "Check-in successful" None None None <> [] /\
  Runtime.log "T" "error" "Check-in successful" None None None <> [].
Proof.
  assert (H1 : Runtime.levels "info" = Some 2) by reflexivity.
  assert (H2 : Runtime.levels "error" = Some 0) by reflexivity.
  assert (H3 : 0 <= 2) by lia.
  assert (H4 : Runtime.log "T" "info" "Check-in successful" None None None <> [])
    by (vm_compute; discriminate).
  repeat split; try assumption.
  exact (log_severity_threshold _ _ _ _ _ _ _ _ _ H1 H2 H3 H4).
Defined.

(** With [LOG_LEVEL] unset or empty, error, warn and info messages are
    output and debug messages are not. *)
Theorem log_default_level (timestamp message : string) (data : option string)
  (LOG_LEVEL LOG_TO_FILE : option string)
  (Hdef : LOG_LEVEL = None \/ LOG_LEVEL = Some ""%string) :
  Forall (fun l => Runtime.log timestamp l message data LOG_LEVEL LOG_TO_FILE <> [])
    ["error"; "warn"; "info"]%string /\
  Runtime.log timestamp "debug" message data LOG_LEVEL LOG_TO_FILE = [].
Proof.
  assert (Hl : Runtime.logLevelOf LOG_LEVEL = "info"%string)
    by (destruct Hdef as [->| ->]; reflexivity).
  unfold Runtime.log; rewrite Hl.
  repeat constructor; simpl; discriminate.
Qed.

Lemma log_default_level_witness :
  ((None : option string) = None \/ (None : option string) = Some ""%string) /\
  Forall (fun l => Runtime.log "T" l "m" None None None <> [])
    ["error"; "warn"; "info"]%string /\
  Runtime.log "T" "debug" "m" None None None = [].
Proof.
  assert (H : (None : option string) = None \/ (None : option string) = Some ""%string)
    by (left; reflexivity).
  split; [exact H|]; exact (log_default_level "T" "m" None None None H).
Defined.

(** When [log] outputs, its first output is the console line, and the log
    file receives exactly that line followed by a newline if and only if
    [LOG_TO_FILE] is exactly ["true"]. *)
Theorem log_file_mirrors_console (timestamp level message : string)
  (data : option string) (LOG_LEVEL LOG_TO_FILE : option string)
  (line : string)
  (Hhd : hd_error (Runtime.log timestamp level message data LOG_LEVEL LOG_TO_FILE)
         = Some (Runtime.Console line)) :
  forall x, In (Runtime.AppendFile x)
               (Runtime.log timestamp level message data LOG_LEVEL LOG_TO_FILE)
            <-> LOG_TO_FILE = Some "true"%string /\
                x = (line ++ Runtime.newline)%string.
Proof.
  revert Hhd; unfold Runtime.log.
  destruct (Runtime.levelLeq _ _); simpl; [|discriminate].
  intros Hhd; injection Hhd as <-; intros x.
  assert (Hd : forall d, ~ In (Runtime.AppendFile x)
                 (match d with
                  | Some d => if String.eqb d "" then [] else [Runtime.ConsoleData d]
                  | None => [] end)).
  { intros [d|]; simpl; [destruct (String.eqb d ""); simpl|]; intuition discriminate. }
  split.
  - intros [H|H]; [discriminate|].
    apply in_app_or in H as [H|H]; [exfalso; exact (Hd data H)|].
    destruct LOG_TO_FILE as [v|]; [|contradiction].
    destruct (String.eqb_spec v "true") as [->|]; [|contradiction].
    destruct H as [H|[]]; injection H as <-; auto.
  - intros [-> ->]; right; apply in_or_app; right; simpl; auto.
Qed.

Lemma log_file_mirrors_console_witness :
  hd_error (Runtime.log "T" "warn" "Rate limited, rotating IP..." None None (Some "true"%string))
    = Some (Runtime.Console "[T] [WARN] Rate limited, rotating IP...") /\
  In (Runtime.AppendFile ("[T] [WARN] Rate limited, rotating IP..." ++ Runtime.newline))
     (Runtime.log "T" "warn" "Rate limited, rotating IP..." None None (Some "true"%string)).
Proof.
  assert (H : hd_error (Runtime.log "T" "warn" "Rate limited, rotating IP..." None None
                          (Some "true"%string))
              = Some (Runtime.Console "[T] [WARN] Rate limited, rotating IP..."))
    by reflexivity.
  split; [exact H|].
  apply (log_file_mirrors_console _ _ _ _ _ _ _ H); split; reflexivity.
Defined.

(** ** Rate limiter: window counter and exact waits *)

(** From a window count in [[0, requestsPerMinute]], a call leaves it in
    [[1, requestsPerMinute]]: the quota is never exceeded inside a window
    and the call is always counted. *)
Theorem waitForRateLimit_count_bounds (d : RateLimit.Delays) (clock : Z)
  (rl : RateLimit.RateLimiter)
  (Hrpm : 1 <= RateLimit.requestsPerMinute rl)
  (Hlo : 0 <= RateLimit.requestCount rl)
  (Hhi : RateLimit.requestCount rl <= RateLimit.requestsPerMinute rl) :
  let rl' := snd (RateLimit.waitForRateLimit d (clock, rl)) in
  1 <= RateLimit.requestCount rl' <= RateLimit.requestsPerMinute rl' /\
  RateLimit.requestsPerMinute rl' = RateLimit.requestsPerMinute rl.
Proof.
  destruct rl as [lr mi rpm rc ms]; rl_simpl in *.
  rl_cases; lia.
Qed.

Lemma waitForRateLimit_count_bounds_witness :
  1 <= RateLimit.requestsPerMinute (RateLimit.initRateLimiter 0) /\
  0 <= RateLimit.requestCount (RateLimit.initRateLimiter 0) /\
  RateLimit.requestCount (RateLimit.initRateLimiter 0)
    <= RateLimit.requestsPerMinute (RateLimit.initRateLimiter 0) /\
  (let rl' := snd (RateLimit.waitForRateLimit (RateLimit.mkDelays 0 0 0 0)
                     (0, RateLimit.initRateLimiter 0)) in
   1 <= RateLimit.requestCount rl' <= RateLimit.requestsPerMinute rl' /\
   RateLimit.requestsPerMinute rl' = RateLimit.requestsPerMinute (RateLimit.initRateLimiter 0)).
Proof.
  assert (H1 : 1 <= RateLimit.requestsPerMinute (RateLimit.initRateLimiter 0)) by (simpl; lia).
  assert (H2 : 0 <= RateLimit.requestCount (RateLimit.initRateLimiter 0)) by (simpl; lia).
  assert (H3 : RateLimit.requestCount (RateLimit.initRateLimiter 0)
               <= RateLimit.requestsPerMinute (RateLimit.initRateLimiter 0)) by (simpl; lia).
  split; [exact H1|]; split; [exact H2|]; split; [exact H3|].
  exact (waitForRateLimit_count_bounds _ 0 _ H1 H2 H3).
Defined.

(** Below the quota (or once the window has expired), a call records its
    request at [max(now, lastRequest + minInterval)], where [now] is the
    entry time, plus the lateness of the interval timer when it had to
    wait, plus the time before the final [Date.now()]. *)
Theorem waitForRateLimit_below_quota_time (d : RateLimit.Delays) (clock : Z)
  (rl : RateLimit.RateLimiter)
  (Hrpm : 0 < RateLimit.requestsPerMinute rl)
  (Hq : clock + RateLimit.gap d - RateLimit.minuteStart rl > 60000 \/
        RateLimit.requestCount rl < RateLimit.requestsPerMinute rl) :
  let now := clock + RateLimit.gap d in
  RateLimit.lastRequest (snd (RateLimit.waitForRateLimit d (clock, rl)))
  = Z.max now (RateLimit.lastRequest rl + RateLimit.minInterval rl)
    + (if now - RateLimit.lastRequest rl <? RateLimit.minInterval rl
       then RateLimit.late2 d else 0)
    + RateLimit.drift d.
Proof.
  destruct rl as [lr mi rpm rc ms]; destruct d as [g l1 l2 dr]; rl_simpl in *.
  rl_cases; lia.
Qed.

Lemma waitForRateLimit_below_quota_time_witness :
  let rl := RateLimit.initRateLimiter 1000000 in
  let d := RateLimit.mkDelays 5 7 11 13 in
  0 < RateLimit.requestsPerMinute rl /\
  (1000000 + RateLimit.gap d - RateLimit.minuteStart rl > 60000 \/
   RateLimit.requestCount rl < RateLimit.requestsPerMinute rl) /\
  RateLimit.lastRequest (snd (RateLimit.waitForRateLimit d (1000000, rl)))
  = Z.max (1000000 + RateLimit.gap d) (RateLimit.lastRequest rl + RateLimit.minInterval rl)
    + (if 1000000 + RateLimit.gap d - RateLimit.lastRequest rl <? RateLimit.minInterval rl
       then RateLimit.late2 d else 0)
    + RateLimit.drift d.
Proof.
  intros rl d.
  assert (H1 : 0 < RateLimit.requestsPerMinute rl) by (simpl; lia).
  assert (H2 : 1000000 + RateLimit.gap d - RateLimit.minuteStart rl > 60000 \/
               RateLimit.requestCount rl < RateLimit.requestsPerMinute rl)
    by (right; simpl; lia).
  split; [exact H1|]; split; [exact H2|].
  exact (waitForRateLimit_below_quota_time d 1000000 rl H1 H2).
Defined.

(** When the quota of the current window is reached, the call resumes
    when the window closes (plus the lateness of that timer) and then
    still waits out the minimum interval measured from its entry time
    [now]: it records at [minuteStart + 60000 + late1 +
    max(0, lastRequest + minInterval - now)] (plus the second timer's
    lateness when it waited, plus the time before the final
    [Date.now()]), opens the new window at the first wake-up time, and
    counts 1 request in it. *)
Theorem waitForRateLimit_quota_time (d : RateLimit.Delays) (clock : Z)
  (rl : RateLimit.RateLimiter)
  (Hwin : clock + RateLimit.gap d - RateLimit.minuteStart rl <= 60000)
  (Hq : RateLimit.requestsPerMinute rl <= RateLimit.requestCount rl) :
  let now := clock + RateLimit.gap d in
  let rl' := snd (RateLimit.waitForRateLimit d (clock, rl)) in
  RateLimit.lastRequest rl'
    = RateLimit.minuteStart rl + 60000 + RateLimit.late1 d +
      Z.max 0 (RateLimit.lastRequest rl + RateLimit.minInterval rl - now)
      + (if now - RateLimit.lastRequest rl <? RateLimit.minInterval rl
         then RateLimit.late2 d else 0)
      + RateLimit.drift d /\
  RateLimit.minuteStart rl' = RateLimit.minuteStart rl + 60000 + RateLimit.late1 d /\
  RateLimit.requestCount rl' = 1.
Proof.
  destruct rl as [lr mi rpm rc ms]; destruct d as [g l1 l2 dr]; rl_simpl in *.
  rl_cases; repeat split; lia.
Qed.

(** Entering 30 s into a full window, 10 s after the last request, with
    timers 7 ms and 11 ms late: the call records 80 s past the window
    start (plus the lateness), not at 60 s. *)
Lemma waitForRateLimit_quota_time_witness :
  let rl := {| RateLimit.lastRequest := 1020000; RateLimit.minInterval := 30000;
               RateLimit.requestsPerMinute := 3; RateLimit.requestCount := 3;
               RateLimit.minuteStart := 1000000 |} in
  let d := RateLimit.mkDelays 0 7 11 13 in
  1030000 + RateLimit.gap d - RateLimit.minuteStart rl <= 60000 /\
  RateLimit.requestsPerMinute rl <= RateLimit.requestCount rl /\
  (let now := 1030000 + RateLimit.gap d in
   let rl' := snd (RateLimit.waitForRateLimit d (1030000, rl)) in
   RateLimit.lastRequest rl'
     = RateLimit.minuteStart rl + 60000 + RateLimit.late1 d +
       Z.max 0 (RateLimit.lastRequest rl + RateLimit.minInterval rl - now)
       + (if now - RateLimit.lastRequest rl <? RateLimit.minInterval rl
          then RateLimit.late2 d else 0)
       + RateLimit.drift d /\
   RateLimit.minuteStart rl' = RateLimit.minuteStart rl + 60000 + RateLimit.late1 d /\
   RateLimit.requestCount rl' = 1).
Proof.
  intros rl d.
  assert (H1 : 1030000 + RateLimit.gap d - RateLimit.minuteStart rl <= 60000) by (simpl; lia).
  assert (H2 : RateLimit.requestsPerMinute rl <= RateLimit.requestCount rl) by (simpl; lia).
  split; [exact H1|]; split; [exact H2|].
  exact (waitForRateLimit_quota_time d 1030000 rl H1 H2).
Defined.

(** ** Check-in token *)

(** With the four clock readings in order, the token is never valid
    before it is issued ([nbf <= iat]), lives at most 300 s
    ([exp - iat <= 300]), exactly 300 s when the readings fall in one
    second and at least 299 s when they are less than a second apart;
    its audience is the configured IP alone. *)
Theorem checkinPayload_times (cfg : Runtime.Config) (t1 t2 t3 t4 : Z)
  (H12 : t1 <= t2) (H23 : t2 <= t3) :
  let p := Runtime.checkinPayload cfg t1 t2 t3 t4 in
  Runtime.nbf p <= Runtime.iat p /\
  Runtime.exp p - Runtime.iat p <= 300 /\
  (t1 / 1000 = t3 / 1000 -> Runtime.exp p - Runtime.iat p = 300) /\
  (t3 - t1 < 1000 -> 299 <= Runtime.exp p - Runtime.iat p) /\
  Runtime.aud p = [Runtime.cfg_ipAddress cfg].
Proof.
  simpl.
  assert (t1 / 1000 <= t2 / 1000) by (apply Z.div_le_mono; lia).
  assert (t2 / 1000 <= t3 / 1000) by (apply Z.div_le_mono; lia).
  split; [lia|]; split; [lia|]; split; [lia|]; split; [|reflexivity].
  intros Hlt.
  assert (t3 / 1000 <= (t1 + 999) / 1000) by (apply Z.div_le_mono; lia).
  assert ((t1 + 999) / 1000 <= t1 / 1000 + 1).
  { rewrite <- (Z.div_add t1 1 1000) by lia. apply Z.div_le_mono; lia. }
  lia.
Qed.

Lemma checkinPayload_times_witness :
  let cfg := Runtime.mkConfig None None None None (Some "1.2.3.4"%string) in
  1700000000999 <= 1700000001000 /\ 1700000001000 <= 1700000001000 /\
  (let p := Runtime.checkinPayload cfg 1700000000999 1700000001000 1700000001000 1700000001000 in
   Runtime.nbf p <= Runtime.iat p /\
   Runtime.exp p - Runtime.iat p <= 300 /\
   (1700000000999 / 1000 = 1700000001000 / 1000 -> Runtime.exp p - Runtime.iat p = 300) /\
   (1700000001000 - 1700000000999 < 1000 -> 299 <= Runtime.exp p - Runtime.iat p) /\
   Runtime.aud p = [Runtime.cfg_ipAddress cfg]).
Proof.
  intros cfg.
  assert (H1 : 1700000000999 <= 1700000001000) by lia.
  assert (H2 : 1700000001000 <= 1700000001000) by lia.
  split; [exact H1|]; split; [exact H2|].
  exact (checkinPayload_times cfg _ _ _ 1700000001000 H1 H2).
Defined.

(** ** Start-up *)

(** [main()] never rejects, so [startWithRetry] (with at least one retry
    allowed) calls [main] exactly once: a successful start leaves the
    process running, a failed one exits with status 1 at once; the retry
    branch is never taken. *)
Theorem startWithRetry_single_attempt (maxRetries : nat)
  (attempts : nat -> Grass.Exc unit) (Hmax : (1 <= maxRetries)%nat) :
  Runtime.startWithRetry maxRetries attempts
  = (match attempts 0%nat with
     | Grass.Ok _ => Runtime.Running
     | Grass.Throw _ => Runtime.Exited 1
     end, 1%nat).
Proof.
  destruct maxRetries as [|r]; [lia|].
  unfold Runtime.startWithRetry; simpl.
  destruct (attempts 0%nat); reflexivity.
Qed.

Lemma startWithRetry_single_attempt_witness :
  (1 <= 3)%nat /\
  Runtime.startWithRetry 3 (fun _ => Grass.Throw Grass.fsError)
  = (Runtime.Exited 1, 1%nat).
Proof.
  assert (H : (1 <= 3)%nat) by lia.
  split; [exact H|].
  exact (startWithRetry_single_attempt 3 (fun _ => Grass.Throw Grass.fsError) H).
Defined.

(** ** The monitoring cycle as a whole *)

Lemma fetchStatus_frame (device : option DeviceStatus) (st : State) :
  exists st', fetchStatus device st = (Ok tt, st') /\
    config_ipAddress st' = config_ipAddress st /\
    trace st' = Request RetrieveDevice :: trace st /\
    stats st' = with_uptimeHours (uptimeHours (stats st')) (stats st).
Proof.
  cbv [fetchStatus getDeviceStatus bind emit ret modify_stats].
  destruct device as [[c [u|]]|]; simpl; [destruct (u =? 0)|..]; simpl;
    eexists; (split; [reflexivity|]); cbn [config_ipAddress trace stats];
    destruct (stats st); repeat split; reflexivity.
Qed.

Lemma maintainIp_frame (ips : option (list IpEntry)) (now : Z)
  (rotReply : option (list IpEntry)) (st : State) :
  exists st', maintainIp ips now rotReply st = (Ok tt, st') /\
    lastSaved (trace st') = lastSaved (trace st) /\
    ((config_ipAddress st' = config_ipAddress st /\ stats st' = stats st) \/
     stats st' = with_ipRotations (ipRotations (stats st) + 1) (stats st)).
Proof.
  cbv [maintainIp getActiveIps bind emit ret get].
  destruct (Qle_bool _ _); simpl; [case_rotateIp|]; simpl;
    eexists; split; try reflexivity; simpl; auto.
Qed.

Lemma syncProfile_frame (profile : option UserProfile) (st : State) :
  exists st', syncProfile profile st = (Ok tt, st') /\
    config_ipAddress st' = config_ipAddress st /\
    trace st' = Request RetrieveUser :: trace st /\
    stats st' = with_totalPoints (totalPoints (stats st')) (stats st).
Proof.
  cbv [syncProfile getUserProfile bind emit ret modify_stats].
  destruct profile as [[[t|]]|]; simpl; [destruct (t =? 0)|..]; simpl;
    eexists; (split; [reflexivity|]); cbn [config_ipAddress trace stats];
    destruct (stats st); repeat split; reflexivity.
Qed.

Lemma checkIn_effect (token : Exc string) (reply : Exc CheckinResponse)
  (now : Z) (rotReply : option (list IpEntry)) (st : State) :
  let '(r, st') := checkIn token reply now rotReply st in
  totalCheckins (stats st') = totalCheckins (stats st) + 1 /\
  successfulCheckins (stats st') + failedCheckins (stats st')
    = successfulCheckins (stats st) + failedCheckins (stats st) + 1 /\
  ((config_ipAddress st' = config_ipAddress st /\
    ipRotations (stats st') = ipRotations (stats st)) \/
   ipRotations (stats st') = ipRotations (stats st) + 1) /\
  lastCheckin (stats st') =
    match token, reply with
    | Ok _, Ok _ => Some now
    | _, _ => lastCheckin (stats st)
    end /\
  (forall e, r = Throw e -> lastSaved (trace st') = Some (stats st')).
Proof.
  unfold_M; destruct token; [destruct reply|]; simpl;
    destruct_matches; try case_rotateIp; simpl;
    (split; [lia|]); (split; [lia|]);
    (split; [first [left; split; reflexivity | right; reflexivity]|]);
    (split; [reflexivity|]); intros ? ?; first [discriminate | reflexivity].
Qed.

Lemma monitorAndMaintain_effect (env : Env) (st : State) :
  let st' := snd (monitorAndMaintain env st) in
  fst (monitorAndMaintain env st) = Ok tt /\
  totalCheckins (stats st') = totalCheckins (stats st) + 1 /\
  successfulCheckins (stats st') + failedCheckins (stats st')
    = successfulCheckins (stats st) + failedCheckins (stats st) + 1 /\
  ipRotations (stats st) <= ipRotations (stats st') <= ipRotations (stats st) + 2 /\
  (ipRotations (stats st') = ipRotations (stats st) ->
     config_ipAddress st' = config_ipAddress st) /\
  lastCheckin (stats st') =
    match env_token env, env_checkin env with
    | Ok _, Ok _ => Some (env_now_checkin env)
    | _, _ => lastCheckin (stats st)
    end /\
  lastSaved (trace st') = Some (stats st').
Proof.
  unfold monitorAndMaintain, catch, bind.
  destruct (fetchStatus_frame (env_device env) st) as (st1 & -> & Hi1 & _ & Hs1).
  destruct (maintainIp_frame (env_ips env) (env_now_maintain env) (env_ips_rotate env) st1)
    as (st2 & -> & _ & H2).
  pose proof (checkIn_effect (env_token env) (env_checkin env) (env_now_checkin env)
                (env_ips_checkin env) st2) as H3.
  destruct (checkIn _ _ _ _ st2) as [[r|e] st3].
  - destruct (syncProfile_frame (env_profile env) st3) as (st4 & -> & Hi4 & _ & Hs4).
    cbv [saveStats get emit]; simpl.
    destruct H3 as (Ht & Hsf & Hrot & Hlc & _).
    rewrite Hs4 in *; rewrite Hs1 in *; simpl in *.
    destruct H2 as [[Hi2 Hst2]|Hst2]; rewrite Hst2 in *; simpl in *;
      repeat split; try lia; try (now rewrite Hlc);
      destruct Hrot as [[? ?]|?]; intros; try lia; congruence.
  - simpl.
    destruct H3 as (Ht & Hsf & Hrot & Hlc & Hsave).
    rewrite Hs1 in *; simpl in *.
    destruct H2 as [[Hi2 Hst2]|Hst2]; rewrite Hst2 in *; simpl in *;
      repeat split; try lia; try (now rewrite Hlc); try (now apply (Hsave e));
      destruct Hrot as [[? ?]|?]; intros; try lia; congruence.
Qed.

(** Every monitoring cycle makes exactly one check-in attempt, whatever the
    replies: [totalCheckins] and [successfulCheckins + failedCheckins]
    each grow by exactly one, and the cycle returns normally. *)
Theorem monitorAndMaintain_one_checkin (env : Env) (st : State) :
  let st' := snd (monitorAndMaintain env st) in
  fst (monitorAndMaintain env st) = Ok tt /\
  totalCheckins (stats st') = totalCheckins (stats st) + 1 /\
  successfulCheckins (stats st') + failedCheckins (stats st')
    = successfulCheckins (stats st) + failedCheckins (stats st) + 1.
Proof.
  destruct (monitorAndMaintain_effect env st) as (H0 & H1 & H2 & _); auto.
Qed.

(** A monitoring cycle keeps [totalCheckins = successfulCheckins +
    failedCheckins]. *)
Theorem monitorAndMaintain_preserves_balance (env : Env) (st : State)
  (Hinv : checkin_balanced (stats st)) :
  checkin_balanced (stats (snd (monitorAndMaintain env st))).
Proof.
  unfold checkin_balanced in *.
  destruct (monitorAndMaintain_effect env st) as (_ & H1 & H2 & _); lia.
Qed.

Lemma monitorAndMaintain_preserves_balance_witness :
  checkin_balanced (stats points_state) /\
  checkin_balanced (stats (snd (monitorAndMaintain (cycle_env 50 500) points_state))).
Proof.
  assert (H : checkin_balanced (stats points_state)) by reflexivity.
  split; [exact H|]; exact (monitorAndMaintain_preserves_balance _ _ H).
Defined.

(** A monitoring cycle rotates the IP at most twice ([ipRotations] grows
    by 0, 1 or 2), and the configured IP changes only in a cycle that
    counted a rotation. *)
Theorem monitorAndMaintain_rotation_bound (env : Env) (st : State) :
  let st' := snd (monitorAndMaintain env st) in
  ipRotations (stats st) <= ipRotations (stats st') <= ipRotations (stats st) + 2 /\
  (config_ipAddress st' <> config_ipAddress st ->
     ipRotations (stats st) < ipRotations (stats st')).
Proof.
  destruct (monitorAndMaintain_effect env st) as (_ & _ & _ & Hb & Hip & _).
  split; [exact Hb|].
  intros Hne; destruct (Z.eq_dec (ipRotations (stats (snd (monitorAndMaintain env st))))
                                  (ipRotations (stats st))) as [He|He].
  - exfalso; exact (Hne (Hip He)).
  - lia.
Qed.

Lemma monitorAndMaintain_rotation_bound_witness :
  let env := {| env_device := None; env_ips := None; env_now_maintain := 0;
                env_ips_rotate := Some [mkIpEntry "A"; mkIpEntry "B"];
                env_token := Ok "tok"%string;
                env_checkin := Throw (mkJsError (Some 429) None);
                env_now_checkin := 0;
                env_ips_checkin := Some [mkIpEntry "B"; mkIpEntry "C"];
                env_profile := None |} in
  let st' := snd (monitorAndMaintain env points_state) in
  ipRotations (stats points_state) <= ipRotations (stats st')
    <= ipRotations (stats points_state) + 2 /\
  (config_ipAddress st' <> config_ipAddress points_state ->
     ipRotations (stats points_state) < ipRotations (stats st')).
Proof.
  exact (monitorAndMaintain_rotation_bound _ points_state).
Defined.

(** At the end of every monitoring cycle, also one cut short by an
    exception in the check-in's error handler, the last record written to
    [stats.json] is the in-memory [stats]. *)
Theorem monitorAndMaintain_persists_final (env : Env) (st : State) :
  let st' := snd (monitorAndMaintain env st) in
  lastSaved (trace st') = Some (stats st').
Proof.
  destruct (monitorAndMaintain_effect env st) as (_ & _ & _ & _ & _ & _ & H); exact H.
Qed.

(** A monitoring cycle sets [lastCheckin] to the check-in instant exactly
    when the token was built and the check-in request succeeded, and
    leaves it unchanged otherwise. *)
Theorem monitorAndMaintain_lastCheckin (env : Env) (st : State) :
  lastCheckin (stats (snd (monitorAndMaintain env st))) =
    match env_token env, env_checkin env with
    | Ok _, Ok _ => Some (env_now_checkin env)
    | _, _ => lastCheckin (stats st)
    end.
Proof.
  destruct (monitorAndMaintain_effect env st) as (_ & _ & _ & _ & _ & H & _); exact H.
Qed.

(** A failed check-in whose error has no message and no 429 status makes
    [checkIn]'s handler throw (reading [error.message.includes]); the
    cycle then ends right after the failure's stats write: the last two
    effects are the [checkin] request and that write, so no profile
    request is made and no rotation is attempted. *)
Theorem monitorAndMaintain_messageless_error_skips_sync (env : Env) (st : State)
  (tok : string) (e : JsError)
  (Htok : env_token env = Ok tok) (Hci : env_checkin env = Throw e)
  (Hmsg : err_message e = None) (Hst : err_status e <> Some 429) :
  exists rest,
    trace (snd (monitorAndMaintain env st))
    = Save (stats (snd (monitorAndMaintain env st))) :: Request Checkin :: rest.
Proof.
  unfold monitorAndMaintain, catch, bind.
  destruct (fetchStatus_frame (env_device env) st) as (st1 & -> & _).
  destruct (maintainIp_frame (env_ips env) (env_now_maintain env) (env_ips_rotate env) st1)
    as (st2 & -> & _).
  rewrite Htok, Hci.
  destruct e as [[c|] [m|]]; simpl in Hmsg, Hst; try discriminate.
  - assert (Hc : (c =? 429) = false) by (apply Z.eqb_neq; congruence).
    unfold_M; simpl; rewrite Hc; simpl; eexists; reflexivity.
  - unfold_M; simpl; eexists; reflexivity.
Qed.

Lemma monitorAndMaintain_messageless_error_skips_sync_witness :
  let env := {| env_device := None; env_ips := None; env_now_maintain := 0;
                env_ips_rotate := None; env_token := Ok "tok"%string;
                env_checkin := Throw (mkJsError (Some 503) None);
                env_now_checkin := 0; env_ips_checkin := None;
                env_profile := Some (mkUserProfile (Some 500)) |} in
  env_token env = Ok "tok"%string /\ env_checkin env = Throw (mkJsError (Some 503) None) /\
  err_message (mkJsError (Some 503) None) = None /\
  err_status (mkJsError (Some 503) None) <> Some 429 /\
  exists rest,
    trace (snd (monitorAndMaintain env points_state))
    = Save (stats (snd (monitorAndMaintain env points_state))) :: Request Checkin :: rest.
Proof.
  intros env.
  assert (H1 : env_token env = Ok "tok"%string) by reflexivity.
  assert (H2 : env_checkin env = Throw (mkJsError (Some 503) None)) by reflexivity.
  assert (H3 : err_message (mkJsError (Some 503) None) = None) by reflexivity.
  assert (H4 : err_status (mkJsError (Some 503) None) <> Some 429) by discriminate.
  repeat (split; [assumption|]).
  exact (monitorAndMaintain_messageless_error_skips_sync env points_state _ _ H1 H2 H3 H4).
Defined.
